(** * Hadamard-test gradient transform (pennylane/gradients/hadamard_gradient.py)

    A shallow embedding of the module's three functions
    [_get_generators], [_expval_hadamard_grad] (with its closure
    [processing_fn]) and [_hadamard_grad], and the properties of them that
    the design document states.

    Conventions of the embedding.
    - Python floats are the exact rationals [Qc]; rounding is not modelled.
    - Gate angles live in Q[pi] (a rational plus a rational multiple of pi),
      so that [np.pi / 2] and negation are exact.
    - A raised exception is the [Raise] branch of the [result] monad.
    - Numeric arrays, and the Python lists and tuples of them that
      [processing_fn] builds, are nested sequences [nd]. *)

From Stdlib Require Import String.
From Stdlib Require Import List ZArith QArith Qcanon Bool Arith Lia.
Import ListNotations.

Local Close Scope Qc_scope.
Local Close Scope Q_scope.
Local Open Scope nat_scope.
Local Open Scope list_scope.
Set Warnings "-register-all".

(** ** Exceptions *)

Inductive exn : Type :=
| NotImplementedError (msg : string)
| ValueError (msg : string)
| QuantumFunctionError (msg : string)
| GeneratorUndefinedError
| IndexError
| KeyError
| TypeError.

Inductive result (A : Type) : Type :=
| Ok (a : A)
| Raise (e : exn).

Arguments Ok {A} a.
Arguments Raise {A} e.

Definition bind {A B : Type} (m : result A) (k : A -> result B) : result B :=
  match m with
  | Ok a => k a
  | Raise e => Raise e
  end.

Declare Scope result_scope.
Delimit Scope result_scope with result.
Notation "x <- m ;; k" := (bind m (fun x => k))
  (at level 100, m at next level, right associativity) : result_scope.
Notation "' p <- m ;; k" := (bind m (fun p => k))
  (at level 100, p pattern, m at next level, right associativity) : result_scope.
Local Open Scope result_scope.

(** [l[i]] on a Python list: [IndexError] out of range. *)
Definition getitem {A : Type} (l : list A) (i : nat) : result A :=
  match nth_error l i with
  | Some a => Ok a
  | None => Raise IndexError
  end.

(** [for x in l: st = body(st, x)], stopping at the first exception. *)
Fixpoint for_each {S A : Type} (body : S -> A -> result S) (l : list A) (st : S)
  : result S :=
  match l with
  | [] => Ok st
  | x :: l' => st' <- body st x ;; for_each body l' st'
  end.

(** [[f(x) for x in l]] where [f] may raise. *)
Fixpoint map_result {A B : Type} (f : A -> result B) (l : list A) : result (list B) :=
  match l with
  | [] => Ok []
  | x :: l' => y <- f x ;; ys <- map_result f l' ;; Ok (y :: ys)
  end.

(** [enumerate(l)] *)
Fixpoint enumerate_from {A : Type} (i : nat) (l : list A) : list (nat * A) :=
  match l with
  | [] => []
  | x :: l' => (i, x) :: enumerate_from (S i) l'
  end.

Definition enumerate {A : Type} (l : list A) : list (nat * A) := enumerate_from 0 l.

(** ** Numbers *)

Definition qc (n : Z) (d : positive) : Qc := Q2Qc (n # d).

(** An angle [rat + pis * pi]. *)
Record angle : Type := Angle { rat : Qc; pis : Qc }.

Definition angle_of (x : Qc) : angle := Angle x 0%Qc.
Definition np_pi : angle := Angle 0%Qc 1%Qc.
Definition angle_neg (a : angle) : angle := Angle (- rat a)%Qc (- pis a)%Qc.
Definition angle_div (a : angle) (d : Qc) : angle := Angle (rat a / d)%Qc (pis a / d)%Qc.

(** ** Wires, observables, operations, measurements *)

Inductive wire : Type :=
| WInt (n : nat)
| WStr (s : string).

Definition wire_eqb (a b : wire) : bool :=
  match a, b with
  | WInt n, WInt m => Nat.eqb n m
  | WStr s, WStr t => String.eqb s t
  | _, _ => false
  end.

(** [w in ws] *)
Definition wire_in (w : wire) (ws : list wire) : bool := existsb (wire_eqb w) ws.

(** [Wires.all_wires]: concatenation keeping the first occurrence of each label. *)
Fixpoint all_wires_acc (acc : list wire) (ws : list wire) : list wire :=
  match ws with
  | [] => acc
  | w :: ws' => all_wires_acc (if wire_in w acc then acc else acc ++ [w]) ws'
  end.

Definition all_wires (wss : list (list wire)) : list wire :=
  all_wires_acc [] (concat wss).

Inductive observable : Type :=
| PauliX (w : wire)
| PauliY (w : wire)
| PauliZ (w : wire)
| Prod (a b : observable)
| Tensor (obs : list observable).

Fixpoint obs_wires (o : observable) : list wire :=
  match o with
  | PauliX w | PauliY w | PauliZ w => [w]
  | Prod a b => all_wires [obs_wires a; obs_wires b]
  | Tensor os => all_wires (map obs_wires os)
  end.

(** The gate classes the module names, [qml.ctrl] of an observable, and any
    other operation by name. *)
Inductive operation : Type :=
| RX (theta : angle) (w : wire)
| RY (theta : angle) (w : wire)
| RZ (theta : angle) (w : wire)
| PhaseShift (phi : angle) (w : wire)
| U1 (phi : angle) (w : wire)
| Rot (phi theta omega : angle) (w : wire)
| CRX (theta : angle) (w0 w1 : wire)
| CRY (theta : angle) (w0 w1 : wire)
| CRZ (theta : angle) (w0 w1 : wire)
| IsingXX (theta : angle) (w0 w1 : wire)
| IsingYY (theta : angle) (w0 w1 : wire)
| IsingZZ (theta : angle) (w0 w1 : wire)
| Hadamard (w : wire)
| Ctrl (base : observable) (control : wire)
| Gate (name : string) (params : list angle) (ws : list wire).

(** [op.data] *)
Definition data (op : operation) : list angle :=
  match op with
  | RX a _ | RY a _ | RZ a _ | PhaseShift a _ | U1 a _ => [a]
  | Rot a b c _ => [a; b; c]
  | CRX a _ _ | CRY a _ _ | CRZ a _ _ => [a]
  | IsingXX a _ _ | IsingYY a _ _ | IsingZZ a _ _ => [a]
  | Hadamard _ | Ctrl _ _ => []
  | Gate _ ps _ => ps
  end.

Inductive mp_kind : Type :=
| ExpectationMP
| ProbabilityMP
| VarianceMP
| StateMP
| VnEntropyMP
| MutualInfoMP
| SampleMP
| CountsMP.

Definition mp_kind_eqb (a b : mp_kind) : bool :=
  match a, b with
  | ExpectationMP, ExpectationMP | ProbabilityMP, ProbabilityMP
  | VarianceMP, VarianceMP | StateMP, StateMP | VnEntropyMP, VnEntropyMP
  | MutualInfoMP, MutualInfoMP | SampleMP, SampleMP | CountsMP, CountsMP => true
  | _, _ => false
  end.

(** A measurement process: its class, [m.obs], and the [wires=] it was
    built with. *)
Record measurement : Type := Measurement {
  mp : mp_kind;
  obs : option observable;
  mp_wires : list wire
}.

(** [m.wires] *)
Definition wires_of (m : measurement) : list wire :=
  match obs m with
  | Some o => obs_wires o
  | None => mp_wires m
  end.

Definition expval (op : observable) : measurement := Measurement ExpectationMP (Some op) [].
Definition probs (op : observable) : measurement := Measurement ProbabilityMP (Some op) [].

(** ** Tapes *)

(** The input tape, as far as the module reads it: [tape.operations],
    [tape.measurements], [tape.trainable_params] and [tape.wires]. *)
Record tape : Type := Tape {
  operations : list operation;
  measurements : list measurement;
  trainable_params : list nat;
  wires : list wire
}.

(** What [qml.tape.QuantumScript(ops=..., measurements=...)] is given, and the
    two attributes the transform overwrites afterwards. *)
Record QuantumScript : Type := Script {
  _ops : list operation;
  _measurements : list measurement
}.

(** Modelled from the spec: [tape.get_operation] belongs to the tape class,
    which is not part of this module.  A trainable-parameter reference
    resolves to the owning gate, its position in the gate sequence and the
    position of the parameter within the gate: parameters are numbered gate
    by gate, in order, and [tape.trainable_params] selects among them. *)
Definition par_info (ops : list operation) : list (operation * nat * nat) :=
  flat_map (fun '(op_idx, op) => map (fun p_idx => (op, op_idx, p_idx)) (seq 0 (length (data op))))
           (enumerate ops).

Definition get_operation (t : tape) (idx : nat) : result (operation * nat * nat) :=
  t_idx <- getitem (trainable_params t) idx ;;
  match nth_error (par_info (operations t)) t_idx with
  | Some info => Ok info
  | None => Raise KeyError
  end.

(** ** Collaborators outside the module *)

Record hamiltonian : Type := Hamiltonian {
  h_coeffs : list Qc;
  h_ops : list observable
}.

(** - [generator]: [op.generator()], defined with each gate class;
    - [rotations_and_diagonal_measurements]: of [qml.tape.tape];
    - [active_return]: [qml.active_return()];
    - [grad_method_validation]: [gradient_analysis] followed by
      [grad_method_validation("analytic", tape)], one method per trainable
      parameter;
    - [choose_grad_methods]: the ordered dictionary it returns;
    - [_get_aux_wire]: [_get_aux_wire(None, tape, device_wires)]. *)
Class Collaborators : Type := {
  generator : operation -> result hamiltonian;
  rotations_and_diagonal_measurements :
    QuantumScript -> result (list operation * list measurement);
  active_return : bool;
  grad_method_validation : tape -> result (list string);
  choose_grad_methods : list string -> option (list nat) -> list (nat * string);
  _get_aux_wire : tape -> option (list wire) -> result wire
}.

(** ** Generator table *)

Definition _get_generators `{Collaborators} (trainable_op : operation)
  : result (list Qc * list observable) :=
  match trainable_op with
  | PhaseShift _ w | U1 _ w => Ok ([qc (-1) 2], [PauliZ w])
  | CRX _ w0 w1 => Ok ([qc (-1) 4; qc 1 4], [PauliX w1; Prod (PauliZ w0) (PauliX w1)])
  | CRY _ w0 w1 => Ok ([qc (-1) 4; qc 1 4], [PauliY w1; Prod (PauliZ w0) (PauliY w1)])
  | CRZ _ w0 w1 => Ok ([qc (-1) 4; qc 1 4], [PauliZ w1; Prod (PauliZ w0) (PauliZ w1)])
  | IsingXX _ w0 w1 => Ok ([qc (-1) 2], [Prod (PauliX w0) (PauliX w1)])
  | IsingYY _ w0 w1 => Ok ([qc (-1) 2], [Prod (PauliY w0) (PauliY w1)])
  | IsingZZ _ w0 w1 => Ok ([qc (-1) 2], [Prod (PauliZ w0) (PauliZ w1)])
  | Rot _ _ _ w => Ok ([qc (-1) 2], [PauliZ w])
  | _ => g <- generator trainable_op ;; Ok (h_coeffs g, h_ops g)
  end.

(** ** The circuit transform *)

(** [l.pop(-1)] *)
Definition pop_last {A : Type} (l : list A) : result (A * list A) :=
  match rev l with
  | [] => Raise IndexError
  | x :: r => Ok (x, rev r)
  end.

(** The body of [for m in tape.measurements]: the measurement of [m]'s
    observable times [PauliY] on the auxiliary wire. *)
Definition extend_measurement (aux_wire : wire) (m : measurement) : measurement :=
  let obs_new :=
    match obs m with
    | Some (Tensor os) => os
    | Some o => [o]
    | None => map PauliZ (wires_of m)
    end in
  let obs_new := obs_new ++ [PauliY aux_wire] in
  let obs_new := Tensor obs_new in
  match mp m with
  | ExpectationMP => expval obs_new
  | _ => probs obs_new
  end.

(** The variables the loop over [generators] updates. *)
Record gen_state : Type := GenState {
  ops_to_trainable_op : list operation;
  ops_after_trainable_op : list operation;
  num_tape : nat;
  gs_tapes : list QuantumScript
}.

(** The body of [for gen in generators]. *)
Definition gen_body `{Collaborators} (t : tape) (aux_wire : wire)
    (trainable_op : operation) (p_idx : nat) (st : gen_state) (gen : observable)
  : result gen_state :=
  '(ops_to, ops_after) <-
    match trainable_op with
    | Rot _ _ omega w =>
        if p_idx =? 0 then
          '(op_before_trainable_op, ops_to) <- pop_last (ops_to_trainable_op st) ;;
          Ok (ops_to, [op_before_trainable_op] ++ ops_after_trainable_op st)
        else if p_idx =? 1 then
          let ops_to_add_before :=
            [RZ (angle_neg omega) w; RX (angle_div np_pi (qc 2 1)) w] in
          let ops_to_add_after :=
            [RX (angle_div (angle_neg np_pi) (qc 2 1)) w; RZ omega w] in
          Ok (ops_to_trainable_op st ++ ops_to_add_before,
              ops_to_add_after ++ ops_after_trainable_op st)
        else Ok (ops_to_trainable_op st, ops_after_trainable_op st)
    | _ => Ok (ops_to_trainable_op st, ops_after_trainable_op st)
    end ;;
  let ctrl_gen := [Ctrl gen aux_wire] in
  let hadamard := [Hadamard aux_wire] in
  let ops := ops_to ++ hadamard ++ ctrl_gen ++ hadamard ++ ops_after in
  let new_measurements := map (extend_measurement aux_wire) (measurements t) in
  let new_tape := Script ops new_measurements in
  '(_rotations, _diagonal) <- rotations_and_diagonal_measurements new_tape ;;
  let new_tape := Script (_ops new_tape ++ _rotations) _diagonal in
  Ok (GenState ops_to ops_after (num_tape st + 1) (gs_tapes st ++ [new_tape])).

(** The variables the loop over the trainable parameters updates; the
    closure [processing_fn] captures them together with the tape. *)
Record grad_state : Type := GradState {
  g_tapes : list QuantumScript;
  coeffs : list Qc;
  gradient_data : list nat
}.

(** [argnum or tape.trainable_params] *)
Definition argnums_of (t : tape) (argnum : option (list nat)) : list nat :=
  match argnum with
  | Some (i :: l) => i :: l
  | _ => trainable_params t
  end.

(** The body of [for id_argnum, _ in enumerate(tape.trainable_params)]. *)
Definition param_body `{Collaborators} (t : tape) (argnums : list nat) (aux_wire : wire)
    (st : grad_state) (id_argnum : nat) : result grad_state :=
  if negb (existsb (Nat.eqb id_argnum) argnums) then
    Ok (GradState (g_tapes st) (coeffs st) (gradient_data st ++ [0]))
  else
    '(trainable_op, idx, p_idx) <- get_operation t id_argnum ;;
    let ops_to := firstn (idx + 1) (operations t) in
    let ops_after := skipn (idx + 1) (operations t) in
    '(sub_coeffs, generators) <- _get_generators trainable_op ;;
    let coeffs' := coeffs st ++ sub_coeffs in
    gs <- for_each (gen_body t aux_wire trainable_op p_idx) generators
            (GenState ops_to ops_after 0 (g_tapes st)) ;;
    Ok (GradState (gs_tapes gs) coeffs' (gradient_data st ++ [num_tape gs])).

(** [measurements_probs] *)
Definition measurements_probs (t : tape) : list nat :=
  map fst (filter (fun '(_, m) => mp_kind_eqb (mp m) ProbabilityMP)
                  (enumerate (measurements t))).

(** The transform proper; the second component of the Python result is the
    closure [processing_fn], represented by the state it captures. *)
Definition _expval_hadamard_grad `{Collaborators} (t : tape) (argnum : option (list nat))
    (aux_wire : wire) : result grad_state :=
  let argnums := argnums_of t argnum in
  for_each (param_body t argnums aux_wire)
           (map fst (enumerate (trainable_params t)))
           (GradState [] [] []).

(** ** Post-processing *)

(** A number, or a sequence of such: a NumPy array by its rows, and equally
    the Python list or tuple of results for several measurements. *)
Inductive nd : Type :=
| Num (x : Qc)
| Arr (xs : list nd).

(** What the executor returns for one tape: a tuple with one entry per
    measurement, or a single array. *)
Inductive raw : Type :=
| Tuple (rs : list nd)
| Array (a : nd).

(** [c * a], entry by entry. *)
Fixpoint nd_scale (c : Qc) (a : nd) : nd :=
  match a with
  | Num x => Num (c * x)%Qc
  | Arr xs => Arr (map (nd_scale c) xs)
  end.

(** The entries of an array in row-major order. *)
Fixpoint ravel (a : nd) : list Qc :=
  match a with
  | Num x => [x]
  | Arr xs => flat_map ravel xs
  end.

(** [a[i]] *)
Definition nd_getitem (a : nd) (i : nat) : result nd :=
  match a with
  | Num _ => Raise IndexError
  | Arr xs => getitem xs i
  end.

(** [l[i] = v] *)
Fixpoint setitem {A : Type} (l : list A) (i : nat) (v : A) : result (list A) :=
  match l, i with
  | [], _ => Raise IndexError
  | _ :: l', 0 => Ok (v :: l')
  | x :: l', S i' => l'' <- setitem l' i' v ;; Ok (x :: l'')
  end.

Definition nd_setitem (a : nd) (i : nat) (v : nd) : result nd :=
  match a with
  | Num _ => Raise TypeError
  | Arr xs => xs' <- setitem xs i v ;; Ok (Arr xs')
  end.

(** [tuple(a)] *)
Definition tuple (a : nd) : result nd :=
  match a with
  | Num _ => Raise TypeError
  | Arr xs => Ok (Arr xs)
  end.

Fixpoint rows_of (r c : nat) (flat : list Qc) : list (list Qc) :=
  match r with
  | 0 => []
  | S r' => firstn c flat :: rows_of r' c (skipn c flat)
  end.

(** [qml.math.reshape(a, (r, c))] *)
Definition reshape (a : nd) (shape : nat * nat) : result (list (list Qc)) :=
  let '(r, c) := shape in
  let flat := ravel a in
  if length flat =? r * c then Ok (rows_of r c flat)
  else Raise (ValueError "cannot reshape array").

Definition dot (u v : list Qc) : Qc :=
  fold_right (fun '(a, b) acc => (a * b + acc)%Qc) 0%Qc (combine u v).

(** [qml.math.tensordot(m, v, axes=[[1], [0]])] *)
Definition tensordot (m : list (list Qc)) (v : list Qc) : nd :=
  Arr (map (fun row => Num (dot row v)) m).

(** [np.array([1, -1])] *)
Definition projector : list Qc := [qc 1 1; qc (-1) 1].

(** Entrywise sum of two arrays of one shape. *)
Fixpoint nd_add (a b : nd) {struct a} : result nd :=
  match a, b with
  | Num x, Num y => Ok (Num (x + y)%Qc)
  | Arr xs, Arr ys =>
      zs <- (fix add_all (xs ys : list nd) {struct xs} : result (list nd) :=
               match xs, ys with
               | [], [] => Ok []
               | x :: xs', y :: ys' =>
                   z <- nd_add x y ;; zs <- add_all xs' ys' ;; Ok (z :: zs)
               | _, _ => Raise (ValueError "inhomogeneous shape")
               end) xs ys ;;
      Ok (Arr zs)
  | _, _ => Raise (ValueError "inhomogeneous shape")
  end.

(** [qml.math.sum(l, axis=axis)] of a list of arrays: with [axis=None] the
    sum of all entries of all of them, with [axis=0] their entrywise sum. *)
Definition sum_all (l : list nd) : nd :=
  Num (fold_right Qcplus 0%Qc (flat_map ravel l)).

Definition sum_axis0 (l : list nd) : result nd :=
  match l with
  | [] => Ok (Num 0%Qc)
  | a :: l' => for_each nd_add l' a
  end.

Definition math_sum (l : list nd) (axis : option nat) : result nd :=
  match axis with
  | None => Ok (sum_all l)
  | Some _ => sum_axis0 l
  end.

(** [l[i:j]] *)
Definition slice {A : Type} (l : list A) (i j : nat) : list A :=
  firstn (j - i) (skipn i l).

(** The comprehension that builds [final_res]. *)
Definition scale_result (coeff : Qc) (res : raw) : nd :=
  match res with
  | Tuple rs => Arr (map (fun r => nd_scale (qc 2 1 * coeff)%Qc r) rs)
  | Array a => nd_scale (qc 2 1 * coeff)%Qc a
  end.

Definition scale_results (coeffs : list Qc) (results : list raw) : list nd :=
  map (fun '(coeff, res) => scale_result coeff res) (combine coeffs results).

(** The reshape and contraction applied to one probability result. *)
Definition project_probs (t : tape) (prob_idx : nat) (res : nd) : result nd :=
  m <- getitem (measurements t) prob_idx ;;
  let num_wires_probs := length (wires_of m) in
  res_reshaped <- reshape res (2 ^ num_wires_probs, 2) ;;
  Ok (tensordot res_reshaped projector).

(** The body of [for idx, res in enumerate(final_res)]. *)
Definition probs_body (t : tape) (multi_measurements : bool) (probs_idx : list nat)
    (res : nd) : result nd :=
  if multi_measurements then
    for_each (fun res prob_idx =>
                r <- nd_getitem res prob_idx ;;
                v <- project_probs t prob_idx r ;;
                nd_setitem res prob_idx v)
             probs_idx res
  else
    prob_idx <- getitem probs_idx 0 ;;
    project_probs t prob_idx res.

(** The block under [if measurements_probs:]. *)
Definition postprocess_probs (t : tape) (multi_measurements : bool) (final_res : list nd)
  : result (list nd) :=
  match measurements_probs t with
  | [] => Ok final_res
  | probs_idx =>
      first <- getitem final_res 0 ;;
      _ <- (if multi_measurements then nd_getitem first 0 else Ok first) ;;
      map_result (probs_body t multi_measurements probs_idx) final_res
  end.

(** The body of [for num_tape in gradient_data], on the pair [(grads, idx)]. *)
Definition grads_body (multi_measurements : bool) (final_res : list nd)
    (st : list nd * nat) (num_tape : nat) : result (list nd * nat) :=
  let '(grads, idx) := st in
  match num_tape with
  | 0 => Ok (grads ++ [Num 0%Qc], idx)
  | 1 => g <- getitem final_res idx ;; Ok (grads ++ [g], idx + 1)
  | _ =>
      let axis := if negb multi_measurements then None else Some 0 in
      g <- math_sum (slice final_res idx (idx + num_tape)) axis ;;
      Ok (grads ++ [g], idx + num_tape)
  end.

(** Everything in [processing_fn] up to the list [grads]. *)
Definition compute_grads (t : tape) (st : grad_state) (results : list raw)
  : result (list nd) :=
  let multi_measurements := 1 <? length (measurements t) in
  let final_res := scale_results (coeffs st) results in
  final_res <- postprocess_probs t multi_measurements final_res ;;
  '(grads, _) <- for_each (grads_body multi_measurements final_res)
                          (gradient_data st) ([], 0) ;;
  Ok grads.

(** The return statements of [processing_fn]. *)
Definition reconcile (t : tape) (grads : list nd) : result nd :=
  let multi_measurements := 1 <? length (measurements t) in
  let multi_params := 1 <? length (trainable_params t) in
  if negb multi_measurements && negb multi_params then getitem grads 0
  else if negb (multi_params && multi_measurements) then
    if multi_measurements then g <- getitem grads 0 ;; tuple g
    else Ok (Arr grads)
  else
    grads_reorder <-
      map_result (fun i =>
        row <- map_result (fun j => g <- getitem grads j ;; nd_getitem g i)
                          (seq 0 (length (trainable_params t))) ;;
        Ok (Arr row))
      (seq 0 (length (measurements t))) ;;
    Ok (Arr grads_reorder).

Definition processing_fn (t : tape) (st : grad_state) (results : list raw) : result nd :=
  grads <- compute_grads t st results ;;
  reconcile t grads.

(** ** The entry point *)

(** What [_hadamard_grad] returns: the result of one of the two zero-gradient
    helpers of [finite_difference], which it hands back untouched, or the
    tapes and closure of [_expval_hadamard_grad]. *)
Inductive grad_output : Type :=
| NoTrainableGrad
| AllZeroGrad
| GradTapes (st : grad_state).

Definition is_variance (m : measurement) : bool := mp_kind_eqb (mp m) VarianceMP.

Definition is_state_like (m : measurement) : bool :=
  mp_kind_eqb (mp m) StateMP || mp_kind_eqb (mp m) VnEntropyMP
  || mp_kind_eqb (mp m) MutualInfoMP.

(** [device_wires and len(tape.wires) == len(device_wires)] *)
Definition no_free_wire (t : tape) (device_wires : option (list wire)) : bool :=
  match device_wires with
  | None | Some [] => false
  | Some dw => length (wires t) =? length dw
  end.

Definition err_return_type : exn :=
  NotImplementedError
    "The Hadamard gradient only supports the new return type. Use qml.enable_return() to turn it on.".
Definition err_variance : exn :=
  ValueError
    "Computing the gradient of variances with the Hadamard test gradient is not implemented.".
Definition err_state : exn :=
  ValueError "Computing the gradient of circuits that return the state is not supported.".
Definition err_no_free_wire : exn :=
  QuantumFunctionError "The device has no free wire for the auxiliary wire.".
Definition err_wire_used : exn :=
  QuantumFunctionError "The auxiliary wire is already used.".
Definition err_wire_missing : exn :=
  QuantumFunctionError "The requested auxiliary wire does not exist on the used device.".

(** [shots] is only passed on to the zero-gradient helpers and is left
    out; [aux_wire], a [Wires] object holding one label, is that label.
    With [aux_wire] given and [device_wires] left at [None], the test
    [aux_wire[0] not in device_wires] is a [TypeError]. *)
Definition _hadamard_grad `{Collaborators} (t : tape) (argnum : option (list nat))
    (aux_wire : option wire) (device_wires : option (list wire)) : result grad_output :=
  if negb active_return then Raise err_return_type
  else if existsb is_variance (measurements t) then Raise err_variance
  else if existsb is_state_like (measurements t) then Raise err_state
  else if match argnum, trainable_params t with None, [] => true | _, _ => false end then
    Ok NoTrainableGrad
  else
    diff_methods <- grad_method_validation t ;;
    if forallb (fun g => String.eqb g "0") diff_methods then Ok AllZeroGrad
    else
      let method_map := choose_grad_methods diff_methods argnum in
      let argnum :=
        map fst (filter (fun '(_, dm) => String.eqb dm "A") method_map) in
      if no_free_wire t device_wires then Raise err_no_free_wire
      else
        aux_wire <-
          match aux_wire with
          | None => _get_aux_wire t device_wires
          | Some a =>
              if wire_in a (wires t) then Raise err_wire_used
              else
                match device_wires with
                | None => Raise TypeError
                | Some dw =>
                    if negb (wire_in a dw) then Raise err_wire_missing else Ok a
                end
          end ;;
        st <- _expval_hadamard_grad t (Some argnum) aux_wire ;;
        Ok (GradTapes st).

(** ** Reference collaborators and sample tapes *)

(** The generators of the three Pauli rotations, as their classes define
    them; every other class falls through to [_get_generators]'s table or
    has no generator. *)
Definition pauli_rot_generator (op : operation) : result hamiltonian :=
  match op with
  | RX _ w => Ok (Hamiltonian [qc (-1) 2] [PauliX w])
  | RY _ w => Ok (Hamiltonian [qc (-1) 2] [PauliY w])
  | RZ _ w => Ok (Hamiltonian [qc (-1) 2] [PauliZ w])
  | _ => Raise GeneratorUndefinedError
  end.

(** Collaborators for the sample runs: no diagonalising rotation is added,
    every trainable parameter is analytic, the first device wire the tape
    does not use is the default auxiliary wire. *)
Definition sample_collaborators : Collaborators := {|
  generator := pauli_rot_generator;
  rotations_and_diagonal_measurements := fun s => Ok ([], _measurements s);
  active_return := true;
  grad_method_validation := fun t => Ok (map (fun _ => "A"%string) (trainable_params t));
  choose_grad_methods := fun diff_methods argnum =>
    match argnum with
    | None => enumerate diff_methods
    | Some l => filter (fun '(i, _) => existsb (Nat.eqb i) l) (enumerate diff_methods)
    end;
  _get_aux_wire := fun t device_wires =>
    match device_wires with
    | None => Ok (WInt (length (wires t)))
    | Some dw =>
        match filter (fun w => negb (wire_in w (wires t))) dw with
        | w :: _ => Ok w
        | [] => Raise (QuantumFunctionError "no free wire")
        end
    end
|}.

Definition w0 : wire := WInt 0.
Definition w1 : wire := WInt 1.
Definition w2 : wire := WInt 2.

Definition theta (n : Z) (d : positive) : angle := angle_of (qc n d).

(** [RX(0.1, 0); RY(0.2, 0); RX(0.3, 0); expval(PauliZ(0))], the tape of the
    module's docstring. *)
Definition tape_rx_ry_rx : tape :=
  Tape [RX (theta 1 10) w0; RY (theta 1 5) w0; RX (theta 3 10) w0]
       [expval (PauliZ w0)] [0; 1; 2] [w0].

(** [Rot(0.1, 0.2, 0.3, 0); RY(0.4, 0); expval(PauliZ(0))], the three Euler
    angles trainable. *)
Definition tape_rot : tape :=
  Tape [Rot (theta 1 10) (theta 1 5) (theta 3 10) w0; RY (theta 2 5) w0]
       [expval (PauliZ w0)] [0; 1; 2] [w0].

(** [CRX(0.4, [0, 1]); probs(wires=[0])] *)
Definition tape_crx_probs : tape :=
  Tape [CRX (theta 2 5) w0 w1]
       [Measurement ProbabilityMP None [w0]] [0] [w0; w1].

(** [RX(0.1, 0); expval(PauliZ(0))] with no trainable parameter. *)
Definition tape_fixed : tape :=
  Tape [RX (theta 1 10) w0] [expval (PauliZ w0)] [] [w0].

(** [RX(0.1, 0); var(PauliZ(0))] *)
Definition tape_var : tape :=
  Tape [RX (theta 1 10) w0] [Measurement VarianceMP (Some (PauliZ w0)) []] [0] [w0].

(** [RX(0.1, 0); RY(0.2, 1); expval(PauliZ(0)); probs(wires=[1])] *)
Definition tape_two_by_two : tape :=
  Tape [RX (theta 1 10) w0; RY (theta 1 5) w1]
       [expval (PauliZ w0); Measurement ProbabilityMP None [w1]] [0; 1] [w0; w1].

(** A vector of rationals as an array. *)
Definition vec (v : list Qc) : nd := Arr (map Num v).

(** ** Notions used to state the properties *)

Definition unsupported (k : mp_kind) : Prop :=
  k = VarianceMP \/ k = StateMP \/ k = VnEntropyMP \/ k = MutualInfoMP.


(** The split around the generator for parameter slot [p_idx] of the gate
    [op] at position [idx], with the compensation for [Rot]. *)
Definition split_at_gate (ops : list operation) (op : operation) (idx p_idx : nat)
  : list operation * list operation :=
  match op with
  | Rot _ _ omega w =>
      if p_idx =? 0 then (firstn idx ops, [op] ++ skipn (idx + 1) ops)
      else if p_idx =? 1 then
        ((firstn idx ops ++ [op])
           ++ [RZ (angle_neg omega) w; RX (angle_div np_pi (qc 2 1)) w],
         [RX (angle_div (angle_neg np_pi) (qc 2 1)) w; RZ omega w]
           ++ skipn (idx + 1) ops)
      else (firstn idx ops ++ [op], skipn (idx + 1) ops)
  | _ => (firstn idx ops ++ [op], skipn (idx + 1) ops)
  end.

(** The gates of one Hadamard test. *)
Definition hadamard_test (aux_wire : wire) (pre : list operation) (gen : observable)
    (post : list operation) : list operation :=
  pre ++ [Hadamard aux_wire] ++ [Ctrl gen aux_wire] ++ [Hadamard aux_wire] ++ post.

(** The tape emitted for one generator term. *)
Definition aux_tape `{Collaborators} (t : tape) (aux_wire : wire)
    (pre post : list operation) (gen : observable) : result QuantumScript :=
  let new_tape := Script (hadamard_test aux_wire pre gen post)
                         (map (extend_measurement aux_wire) (measurements t)) in
  '(rot, diag) <- rotations_and_diagonal_measurements new_tape ;;
  Ok (Script (_ops new_tape ++ rot) diag).

(** The tapes and coefficients emitted for one trainable parameter. *)
Definition tapes_of_param `{Collaborators} (t : tape) (argnums : list nat)
    (aux_wire : wire) (id_argnum : nat) : result (list QuantumScript * list Qc) :=
  if negb (existsb (Nat.eqb id_argnum) argnums) then Ok ([], [])
  else
    '(op, idx, p_idx) <- get_operation t id_argnum ;;
    '(sub_coeffs, generators) <- _get_generators op ;;
    let '(pre, post) := split_at_gate (operations t) op idx p_idx in
    ts <- map_result (aux_tape t aux_wire pre post) generators ;;
    Ok (ts, sub_coeffs).

(** The tapes of [g_tapes] that belong to parameter [id_argnum], located as
    [processing_fn] locates their results: by the counts in
    [gradient_data]. *)
Definition tapes_for (st : grad_state) (id_argnum : nat) : list QuantumScript :=
  let start := list_sum (firstn id_argnum (gradient_data st)) in
  slice (g_tapes st) start (start + nth id_argnum (gradient_data st) 0).

Definition is_rot (op : operation) : bool :=
  match op with
  | Rot _ _ _ _ => true
  | _ => false
  end.



(** [RX(0.1, 0); probs(wires=[0])] *)
Definition tape_rx_probs : tape :=
  Tape [RX (theta 1 10) w0] [Measurement ProbabilityMP None [w0]] [0] [w0].

(** [grads[j][i]] *)
Definition grads_entry (grads : list nd) (j i : nat) : result nd :=
  g <- getitem grads j ;; nd_getitem g i.

(** The two results of the [CRX] tape, and what a sum entry by entry would
    make of them. *)
Definition crx_results : list raw :=
  [Array (vec [qc 3 10; qc 2 10; qc 1 10; qc 4 10]);
   Array (vec [qc 4 10; qc 1 10; qc 3 10; qc 2 10])].



(** The state of a run that succeeded; the empty state otherwise. *)
Definition state_of (r : result grad_state) : grad_state :=
  match r with
  | Ok st => st
  | Raise _ => GradState [] [] []
  end.

(** The [grads] of a post-processing that succeeded. *)
Definition grads_of (r : result (list nd)) : list nd :=
  match r with
  | Ok g => g
  | Raise _ => []
  end.

(** Sample runs. *)
Definition st_rx_ry_rx : grad_state :=
  state_of (@_expval_hadamard_grad sample_collaborators tape_rx_ry_rx (Some [0]) w1).

Definition st_rot : grad_state :=
  state_of (@_expval_hadamard_grad sample_collaborators tape_rot None w1).

Definition st_crx_probs : grad_state :=
  state_of (@_expval_hadamard_grad sample_collaborators tape_crx_probs None w2).




(** ** Notions used to state the further properties *)

(** [l] is [l'] with some elements left out, the others in their order. *)
Inductive subseq {A : Type} : list A -> list A -> Prop :=
| subseq_nil : subseq [] []
| subseq_skip (x : A) (l l' : list A) : subseq l l' -> subseq l (x :: l')
| subseq_keep (x : A) (l l' : list A) : subseq l l' -> subseq (x :: l) (x :: l').




(** [Gate("Custom", 0.1, wires=[0]); expval(PauliZ(0))]: a gate class
    without a generator. *)
Definition tape_custom : tape :=
  Tape [Gate "Custom" [theta 1 10] [w0]] [expval (PauliZ w0)] [0] [w0].


(** The run on [tape_two_by_two] that differentiates its first parameter
    only, and one result for its one tape. *)
Definition st_first_only : grad_state :=
  state_of (@_expval_hadamard_grad sample_collaborators tape_two_by_two (Some [0]) w2).

Definition results_first_only : list raw :=
  [Tuple [Num (qc 1 2); vec [qc 3 10; qc 2 10; qc 1 10; qc 4 10]]].

(** As [sample_collaborators], but every trainable parameter has the
    gradient method ["0"]. *)
Definition zero_collaborators : Collaborators := {|
  generator := pauli_rot_generator;
  rotations_and_diagonal_measurements := fun s => Ok ([], _measurements s);
  active_return := true;
  grad_method_validation := fun t => Ok (map (fun _ => "0"%string) (trainable_params t));
  choose_grad_methods := @choose_grad_methods sample_collaborators;
  _get_aux_wire := @_get_aux_wire sample_collaborators
|}.

(** An array that is a single number. *)
Definition is_num (a : nd) : Prop := exists x, a = Num x.

(** The [grads] of the run [st_first_only] on its one result. *)
Definition grads_first_only : list nd :=
  grads_of (compute_grads tape_two_by_two st_first_only results_first_only).



Ltac qc_compute :=
  vm_compute;
  repeat match goal with
         | |- @eq Qc _ _ => apply Qc_is_canon; reflexivity
         | |- _ = _ => first [reflexivity | f_equal]
         end.

(** * Properties *)

(** ** The result monad and lists *)

Lemma bind_ok {A B : Type} (m : result A) (k : A -> result B) (b : B) :
  bind m k = Ok b -> exists a, m = Ok a /\ k a = Ok b.
Proof.
  destruct m as [a | e]; cbn; intros Hb; [exists a; split; auto | discriminate].
Qed.

Lemma existsb_intro {A : Type} (f : A -> bool) (l : list A) (x : A) :
  In x l -> f x = true -> existsb f l = true.
Proof.
  intros Hin Hf. apply existsb_exists. exists x. split; assumption.
Qed.

(** ** The generator table *)

(** C2. The lookup returns one term [(-0.5, Z)] for [PhaseShift] and [U1];
    the two terms [(-0.25, P(target))] and [(+0.25, Z(control) P(target))]
    for [CRX], [CRY], [CRZ], with [P] the Pauli of the rotation axis; and the
    one term [(-0.5, P P)] on the gate's two wires for [IsingXX], [IsingYY],
    [IsingZZ]. *)
Theorem get_generators_table `{Collaborators} :
  (forall phi w,
      _get_generators (PhaseShift phi w) = Ok ([qc (-1) 2], [PauliZ w])
      /\ _get_generators (U1 phi w) = Ok ([qc (-1) 2], [PauliZ w]))
  /\ (forall th c tg,
      _get_generators (CRX th c tg)
        = Ok ([qc (-1) 4; qc 1 4], [PauliX tg; Prod (PauliZ c) (PauliX tg)])
      /\ _get_generators (CRY th c tg)
        = Ok ([qc (-1) 4; qc 1 4], [PauliY tg; Prod (PauliZ c) (PauliY tg)])
      /\ _get_generators (CRZ th c tg)
        = Ok ([qc (-1) 4; qc 1 4], [PauliZ tg; Prod (PauliZ c) (PauliZ tg)]))
  /\ (forall th a b,
      _get_generators (IsingXX th a b) = Ok ([qc (-1) 2], [Prod (PauliX a) (PauliX b)])
      /\ _get_generators (IsingYY th a b) = Ok ([qc (-1) 2], [Prod (PauliY a) (PauliY b)])
      /\ _get_generators (IsingZZ th a b) = Ok ([qc (-1) 2], [Prod (PauliZ a) (PauliZ b)])).
Proof.
  repeat split; reflexivity.
Qed.

(** ** Empty argnum *)


(** ** Rejections of the entry point *)

(** C8. A tape with a variance, state, entropy or mutual-information
    measurement is rejected: the call raises, whatever the other arguments,
    and so returns no tape at all; past the return-type check the exception
    is a [ValueError]. *)
Theorem unsupported_measurement_rejected `{Collaborators} (t : tape)
    (argnum : option (list nat)) (aux_wire : option wire)
    (device_wires : option (list wire)) (m : measurement) :
  In m (measurements t) ->
  unsupported (mp m) ->
  exists e, _hadamard_grad t argnum aux_wire device_wires = Raise e
            /\ (active_return = true -> exists msg, e = ValueError msg).
Proof.
  intros Hin Hk. unfold _hadamard_grad.
  destruct active_return; cbn [negb].
  2: { eexists. split; [reflexivity | discriminate]. }
  destruct (existsb is_variance (measurements t)) eqn:Hvar.
  { eexists. split; [reflexivity | intros _; eexists; reflexivity]. }
  assert (Hst : existsb is_state_like (measurements t) = true).
  { destruct Hk as [Hk | [Hk | [Hk | Hk]]].
    - exfalso. assert (existsb is_variance (measurements t) = true) as E.
      { apply existsb_intro with m; [assumption |].
        unfold is_variance. rewrite Hk. reflexivity. }
      congruence.
    - apply existsb_intro with m; [assumption |].
      unfold is_state_like. rewrite Hk. reflexivity.
    - apply existsb_intro with m; [assumption |].
      unfold is_state_like. rewrite Hk. reflexivity.
    - apply existsb_intro with m; [assumption |].
      unfold is_state_like. rewrite Hk. reflexivity. }
  rewrite Hst.
  eexists. split; [reflexivity | intros _; eexists; reflexivity].
Qed.

Lemma unsupported_measurement_rejected_witness :
  exists e, @_hadamard_grad sample_collaborators tape_var None None None = Raise e
            /\ (@active_return sample_collaborators = true -> exists msg, e = ValueError msg).
Proof.
  apply (@unsupported_measurement_rejected sample_collaborators tape_var None None None
           (Measurement VarianceMP (Some (PauliZ w0)) [])).
  - simpl. left. reflexivity.
  - left. reflexivity.
Defined.



(** ** The transform as a comprehension *)

Lemma map_result_length {A B : Type} (f : A -> result B) (l : list A) (l' : list B) :
  map_result f l = Ok l' -> length l' = length l.
Proof.
  revert l'. induction l as [| x l IH]; intros l'; cbn.
  - intros [= <-]. reflexivity.
  - intros Hm. apply bind_ok in Hm as (y & _ & Hm).
    apply bind_ok in Hm as (ys & Hys & [= <-]). cbn. f_equal. auto.
Qed.

Lemma map_result_nth {A B : Type} (f : A -> result B) (l : list A) (l' : list B) :
  map_result f l = Ok l' ->
  forall i x, nth_error l i = Some x ->
  exists y, nth_error l' i = Some y /\ f x = Ok y.
Proof.
  revert l'. induction l as [| a l IH]; intros l' Hm i x Hi.
  - destruct i; discriminate.
  - cbn in Hm. apply bind_ok in Hm as (y & Hy & Hm).
    apply bind_ok in Hm as (ys & Hys & [= <-]).
    destruct i as [| i]; cbn in *.
    + injection Hi as <-. exists y. split; auto.
    + eapply IH; eauto.
Qed.

Lemma map_result_Forall2 {A B : Type} (f : A -> result B) (l : list A) (l' : list B) :
  map_result f l = Ok l' -> Forall2 (fun x y => f x = Ok y) l l'.
Proof.
  revert l'. induction l as [| a l IH]; intros l' Hm; cbn in Hm.
  - injection Hm as <-. constructor.
  - apply bind_ok in Hm as (y & Hy & Hm).
    apply bind_ok in Hm as (ys & Hys & [= <-]).
    constructor; auto.
Qed.

Lemma enumerate_from_fst {A : Type} (l : list A) (i : nat) :
  map fst (enumerate_from i l) = seq i (length l).
Proof.
  revert i. induction l as [| x l IH]; intros i; cbn; [reflexivity |].
  f_equal. apply IH.
Qed.

Lemma In_enumerate_from {A : Type} (l : list A) (k i : nat) (x : A) :
  In (i, x) (enumerate_from k l) -> exists j, i = k + j /\ nth_error l j = Some x.
Proof.
  revert k. induction l as [| y l IH]; intros k; cbn; [tauto |].
  intros [[= <- <-] | Hin].
  - exists 0. split; [lia | reflexivity].
  - apply IH in Hin as (j & -> & Hj). exists (S j). split; [lia | exact Hj].
Qed.

Lemma par_info_In (ops : list operation) (op : operation) (idx p_idx : nat) :
  In (op, idx, p_idx) (par_info ops) ->
  nth_error ops idx = Some op /\ p_idx < length (data op).
Proof.
  unfold par_info. intros Hin.
  apply in_flat_map in Hin as ([i o] & Hio & Hin).
  apply in_map_iff in Hin as (q & [= -> -> ->] & Hq).
  apply in_seq in Hq.
  apply In_enumerate_from in Hio as (j & -> & Hj).
  split; [exact Hj | lia].
Qed.

(** A trainable-parameter reference resolves to a gate of the tape and to
    one of that gate's parameter slots. *)
Lemma get_operation_owner (t : tape) (id : nat) (op : operation) (idx p_idx : nat) :
  get_operation t id = Ok (op, idx, p_idx) ->
  nth_error (operations t) idx = Some op
  /\ p_idx < length (data op)
  /\ id < length (trainable_params t).
Proof.
  unfold get_operation, getitem. intros Hg.
  destruct (nth_error (trainable_params t) id) as [t_idx |] eqn:Hid; [| discriminate].
  cbn in Hg.
  destruct (nth_error (par_info (operations t)) t_idx) as [info |] eqn:Hinfo;
    [| discriminate].
  injection Hg as ->.
  apply nth_error_In in Hinfo. apply par_info_In in Hinfo as [Hop Hp].
  repeat split; try assumption.
  apply nth_error_Some. congruence.
Qed.

Lemma firstn_succ_nth {A : Type} (l : list A) (i : nat) (x : A) :
  nth_error l i = Some x -> firstn (i + 1) l = firstn i l ++ [x].
Proof.
  revert i. induction l as [| y l IH]; intros i Hi.
  - destruct i; discriminate.
  - destruct i as [| i]; cbn in *.
    + injection Hi as <-. reflexivity.
    + f_equal. apply IH. exact Hi.
Qed.

Lemma pop_last_snoc {A : Type} (l : list A) (x : A) :
  pop_last (l ++ [x]) = Ok (x, l).
Proof.
  unfold pop_last. rewrite rev_unit, rev_involutive. reflexivity.
Qed.

(** The loop over the generators of a gate other than [Rot] leaves the
    prefix and the suffix as they are. *)
Lemma gen_loop_plain `{Collaborators} (t : tape) (aux_wire : wire) (op : operation)
    (p_idx : nat) (gens : list observable) (pre post : list operation) (n : nat)
    (ts : list QuantumScript) :
  is_rot op = false ->
  for_each (gen_body t aux_wire op p_idx) gens (GenState pre post n ts)
    = (new <- map_result (aux_tape t aux_wire pre post) gens ;;
       Ok (GenState pre post (n + length new) (ts ++ new))).
Proof.
  intros Hop. revert n ts. induction gens as [| gen gens IH]; intros n ts; cbn.
  - rewrite Nat.add_0_r, app_nil_r. reflexivity.
  - assert (Hstep : gen_body t aux_wire op p_idx (GenState pre post n ts) gen
                    = (s <- aux_tape t aux_wire pre post gen ;;
                       Ok (GenState pre post (n + 1) (ts ++ [s])))).
    { unfold gen_body, aux_tape, hadamard_test.
      destruct op; try discriminate Hop; cbn;
        destruct (rotations_and_diagonal_measurements _) as [[rot diag] | e];
        reflexivity. }
    rewrite Hstep.
    destruct (aux_tape t aux_wire pre post gen) as [s | e]; cbn; [| reflexivity].
    rewrite IH.
    destruct (map_result (aux_tape t aux_wire pre post) gens) as [new | e]; cbn;
      [| reflexivity].
    rewrite <- app_assoc. cbn. do 2 f_equal. lia.
Qed.

(** One turn of the loop over the trainable parameters appends the tapes
    and coefficients of that parameter, and the number of its tapes. *)
Lemma param_body_spec `{Collaborators} (t : tape) (argnums : list nat) (aux_wire : wire)
    (st : grad_state) (id : nat) :
  param_body t argnums aux_wire st id
    = ('(ts, cs) <- tapes_of_param t argnums aux_wire id ;;
       Ok (GradState (g_tapes st ++ ts) (coeffs st ++ cs)
                     (gradient_data st ++ [length ts]))).
Proof.
  unfold param_body, tapes_of_param.
  destruct (negb (existsb (Nat.eqb id) argnums)); cbn.
  { rewrite !app_nil_r. reflexivity. }
  destruct (get_operation t id) as [[[op idx] p_idx] | e] eqn:Hget; cbn; [| reflexivity].
  apply get_operation_owner in Hget as (Hnth & Hp & _).
  rewrite (firstn_succ_nth _ _ _ Hnth).
  destruct (is_rot op) eqn:Hrot.
  - destruct op; try discriminate Hrot. cbn.
    destruct p_idx as [| [| p_idx]];
      unfold gen_body, aux_tape, hadamard_test; cbn;
      rewrite ?pop_last_snoc; cbn;
      destruct (rotations_and_diagonal_measurements _) as [[rot diag] | e];
      reflexivity.
  - destruct (_get_generators op) as [[cs gens] | e] eqn:Hgen; cbn; [| reflexivity].
    rewrite (gen_loop_plain t aux_wire op p_idx gens _ _ 0 (g_tapes st) Hrot).
    assert (Hsplit : split_at_gate (operations t) op idx p_idx
                     = (firstn idx (operations t) ++ [op],
                        skipn (idx + 1) (operations t))).
    { destruct op; try discriminate Hrot; reflexivity. }
    rewrite Hsplit.
    destruct (map_result _ gens) as [new | e]; reflexivity.
Qed.

Lemma run_fold `{Collaborators} (t : tape) (argnums : list nat) (aux_wire : wire)
    (ids : list nat) (st0 st : grad_state) :
  for_each (param_body t argnums aux_wire) ids st0 = Ok st ->
  exists per,
    map_result (tapes_of_param t argnums aux_wire) ids = Ok per
    /\ g_tapes st = g_tapes st0 ++ concat (map fst per)
    /\ coeffs st = coeffs st0 ++ concat (map snd per)
    /\ gradient_data st
       = gradient_data st0 ++ map (fun p => length (fst p)) per.
Proof.
  revert st0. induction ids as [| id ids IH]; intros st0; cbn.
  - intros [= <-]. exists []. cbn. rewrite !app_nil_r. auto.
  - rewrite param_body_spec.
    destruct (tapes_of_param t argnums aux_wire id) as [[ts cs] | e]; cbn;
      [| discriminate].
    intros Hrest. apply IH in Hrest as (per & Hper & Hg & Hc & Hd).
    cbn in Hg, Hc, Hd.
    exists ((ts, cs) :: per). rewrite Hper. cbn.
    rewrite Hg, Hc, Hd, <- !app_assoc. auto.
Qed.

(** The whole transform: parameter by parameter, in the order of the
    trainable parameters. *)
Lemma expval_grad_spec `{Collaborators} (t : tape) (argnum : option (list nat))
    (aux_wire : wire) (st : grad_state) :
  _expval_hadamard_grad t argnum aux_wire = Ok st ->
  exists per,
    map_result (tapes_of_param t (argnums_of t argnum) aux_wire)
               (seq 0 (length (trainable_params t))) = Ok per
    /\ g_tapes st = concat (map fst per)
    /\ coeffs st = concat (map snd per)
    /\ gradient_data st = map (fun p => length (fst p)) per.
Proof.
  unfold _expval_hadamard_grad, enumerate. rewrite enumerate_from_fst.
  intros Hrun. apply run_fold in Hrun. exact Hrun.
Qed.

Lemma slice_from {A : Type} (l : list A) (a n : nat) :
  slice l a (a + n) = firstn n (skipn a l).
Proof.
  unfold slice. f_equal. lia.
Qed.

Lemma list_sum_cons (n : nat) (l : list nat) : list_sum (n :: l) = n + list_sum l.
Proof. reflexivity. Qed.

Lemma slice_concat_nth {A : Type} (L : list (list A)) (i : nat) (ts : list A) :
  nth_error L i = Some ts ->
  slice (concat L) (list_sum (map (@length A) (firstn i L)))
        (list_sum (map (@length A) (firstn i L)) + length ts) = ts.
Proof.
  rewrite slice_from. revert i. induction L as [| x L IH]; intros i Hi.
  - destruct i; discriminate.
  - destruct i as [| i].
    + cbn in *. injection Hi as ->.
      rewrite firstn_app, Nat.sub_diag, firstn_all. cbn. apply app_nil_r.
    + rewrite firstn_cons, map_cons, list_sum_cons. simpl concat.
      rewrite skipn_app, (skipn_all2 x) by lia.
      replace (length x + list_sum (map (@length A) (firstn i L)) - length x)
        with (list_sum (map (@length A) (firstn i L))) by lia.
      apply IH. exact Hi.
Qed.

(** The tapes that the counts attribute to a parameter are the tapes emitted
    for it, and there are as many as its count says. *)
Lemma tapes_for_spec `{Collaborators} (t : tape) (argnum : option (list nat))
    (aux_wire : wire) (st : grad_state) (id : nat) :
  _expval_hadamard_grad t argnum aux_wire = Ok st ->
  id < length (trainable_params t) ->
  exists cs,
    tapes_of_param t (argnums_of t argnum) aux_wire id = Ok (tapes_for st id, cs)
    /\ nth_error (gradient_data st) id = Some (length (tapes_for st id)).
Proof.
  intros Hrun Hid.
  apply expval_grad_spec in Hrun as (per & Hper & Hg & _ & Hd).
  assert (Hseq : nth_error (seq 0 (length (trainable_params t))) id = Some id).
  { rewrite nth_error_seq. apply Nat.ltb_lt in Hid. rewrite Hid. reflexivity. }
  destruct (map_result_nth _ _ _ Hper _ _ Hseq) as ([ts cs] & Hnth & Htp).
  assert (Hcount : nth_error (gradient_data st) id = Some (length ts)).
  { rewrite Hd. rewrite nth_error_map, Hnth. reflexivity. }
  assert (Hfor : tapes_for st id = ts).
  { unfold tapes_for. rewrite (nth_error_nth _ _ 0 Hcount).
    rewrite Hg, Hd. rewrite firstn_map.
    rewrite <- (map_map fst (@length QuantumScript)).
    rewrite <- firstn_map.
    apply slice_concat_nth. rewrite nth_error_map, Hnth. reflexivity. }
  exists cs. rewrite Hfor. auto.
Qed.


(** The tapes of a differentiated parameter, one per generator term. *)
Lemma tapes_for_differentiated `{Collaborators} (t : tape) (argnum : option (list nat))
    (aux_wire : wire) (st : grad_state) (id : nat) (op : operation) (idx p_idx : nat)
    (cs : list Qc) (gens : list observable) :
  _expval_hadamard_grad t argnum aux_wire = Ok st ->
  In id (argnums_of t argnum) ->
  get_operation t id = Ok (op, idx, p_idx) ->
  _get_generators op = Ok (cs, gens) ->
  map_result (aux_tape t aux_wire
                (fst (split_at_gate (operations t) op idx p_idx))
                (snd (split_at_gate (operations t) op idx p_idx))) gens
    = Ok (tapes_for st id).
Proof.
  intros Hrun Hin Hget Hgen.
  destruct (get_operation_owner _ _ _ _ _ Hget) as (_ & _ & Hid).
  destruct (tapes_for_spec _ _ _ _ _ Hrun Hid) as (cs' & Htp & _).
  unfold tapes_of_param in Htp.
  assert (Hmem : existsb (Nat.eqb id) (argnums_of t argnum) = true).
  { apply existsb_exists. exists id. split; [assumption | apply Nat.eqb_refl]. }
  rewrite Hmem, Hget in Htp. cbn in Htp. rewrite Hgen in Htp. cbn in Htp.
  destruct (split_at_gate (operations t) op idx p_idx) as [pre post]. cbn.
  destruct (map_result (aux_tape t aux_wire pre post) gens) as [ts | e];
    cbn in Htp; [| discriminate].
  injection Htp as -> _. reflexivity.
Qed.

Lemma aux_tape_ok `{Collaborators} (t : tape) (aux_wire : wire)
    (pre post : list operation) (gen : observable) (s : QuantumScript) :
  aux_tape t aux_wire pre post gen = Ok s ->
  exists rot,
    rotations_and_diagonal_measurements
      (Script (hadamard_test aux_wire pre gen post)
              (map (extend_measurement aux_wire) (measurements t)))
      = Ok (rot, _measurements s)
    /\ _ops s = hadamard_test aux_wire pre gen post ++ rot.
Proof.
  unfold aux_tape.
  destruct (rotations_and_diagonal_measurements _) as [[rot diag] | e]; cbn;
    [| discriminate].
  intros [= <-]. exists rot. auto.
Qed.

Lemma Forall2_Forall_r {A B : Type} (R : A -> B -> Prop) (P : B -> Prop)
    (l : list A) (l' : list B) :
  Forall2 R l l' -> (forall x y, R x y -> P y) -> Forall P l'.
Proof.
  intros HR HP. induction HR; constructor; eauto.
Qed.

Lemma split_contains (ops : list operation) (op : operation) (idx p_idx : nat) :
  In op (fst (split_at_gate ops op idx p_idx) ++ snd (split_at_gate ops op idx p_idx)).
Proof.
  assert (Hplain : In op ((firstn idx ops ++ [op]) ++ skipn (idx + 1) ops)).
  { apply in_or_app. left. apply in_or_app. right. left. reflexivity. }
  destruct op; try exact Hplain.
  unfold split_at_gate.
  destruct (p_idx =? 0); [| destruct (p_idx =? 1)]; cbn [fst snd].
  - apply in_or_app. right. left. reflexivity.
  - apply in_or_app. left. apply in_or_app. left.
    apply in_or_app. right. left. reflexivity.
  - exact Hplain.
Qed.

(** ** Where the circuit is split *)

(** C1, as stated, fails: the owning gate is not removed.  On the docstring
    tape, differentiating the first [RX], the one emitted tape starts with
    that [RX] and is not the strict prefix, the Hadamard test and the strict
    suffix. *)
Lemma owning_gate_not_removed :
  exists st s,
    @_expval_hadamard_grad sample_collaborators tape_rx_ry_rx (Some [0]) w1 = Ok st
    /\ get_operation tape_rx_ry_rx 0 = Ok (RX (theta 1 10) w0, 0, 0)
    /\ tapes_for st 0 = [s]
    /\ In (RX (theta 1 10) w0) (_ops s)
    /\ forall rot,
         _ops s <> firstn 0 (operations tape_rx_ry_rx)
                     ++ [Hadamard w1; Ctrl (PauliX w0) w1; Hadamard w1]
                     ++ skipn 1 (operations tape_rx_ry_rx) ++ rot.
Proof.
  eexists. eexists.
  split; [reflexivity |].
  split; [reflexivity |].
  split; [reflexivity |].
  split; [left; reflexivity |].
  intros rot. cbn. discriminate.
Qed.

(** C1, amended. For a differentiated parameter the prefix is every gate
    up to and including the owning gate and the suffix every gate strictly
    after it.  The owning gate stays in every emitted tape; when it is not a
    [Rot], each tape is that prefix, the Hadamard test of one generator
    term, that suffix, and the diagonalising rotations. *)
Theorem split_keeps_owning_gate `{Collaborators} (t : tape) (argnum : option (list nat))
    (aux_wire : wire) (st : grad_state) (id : nat) (op : operation) (idx p_idx : nat)
    (cs : list Qc) (gens : list observable) :
  _expval_hadamard_grad t argnum aux_wire = Ok st ->
  In id (argnums_of t argnum) ->
  get_operation t id = Ok (op, idx, p_idx) ->
  _get_generators op = Ok (cs, gens) ->
  firstn (idx + 1) (operations t) = firstn idx (operations t) ++ [op]
  /\ Forall (fun s => In op (_ops s)) (tapes_for st id)
  /\ (is_rot op = false ->
      Forall2 (fun gen s => exists rot,
                 _ops s = firstn (idx + 1) (operations t)
                            ++ [Hadamard aux_wire; Ctrl gen aux_wire; Hadamard aux_wire]
                            ++ skipn (idx + 1) (operations t) ++ rot)
              gens (tapes_for st id)).
Proof.
  intros Hrun Hin Hget Hgen.
  pose proof (tapes_for_differentiated _ _ _ _ _ _ _ _ _ _ Hrun Hin Hget Hgen) as Hts.
  apply map_result_Forall2 in Hts.
  destruct (get_operation_owner _ _ _ _ _ Hget) as (Hnth & _ & _).
  pose proof (firstn_succ_nth _ _ _ Hnth) as Hfirst.
  split; [exact Hfirst |]. split.
  - eapply Forall2_Forall_r; [exact Hts |].
    intros gen s Hs. apply aux_tape_ok in Hs as (rot & _ & ->).
    unfold hadamard_test.
    pose proof (split_contains (operations t) op idx p_idx) as Hc.
    apply in_app_or in Hc. apply in_or_app. left.
    destruct Hc as [Hc | Hc].
    + apply in_or_app. left. exact Hc.
    + apply in_or_app. right. do 3 right. exact Hc.
  - intros Hrot.
    assert (Hsplit : split_at_gate (operations t) op idx p_idx
                     = (firstn idx (operations t) ++ [op],
                        skipn (idx + 1) (operations t))).
    { destruct op; try discriminate Hrot; reflexivity. }
    rewrite Hsplit in Hts. cbn [fst snd] in Hts.
    eapply Forall2_impl; [| exact Hts].
    intros gen s Hs. apply aux_tape_ok in Hs as (rot & _ & ->).
    exists rot. unfold hadamard_test. rewrite Hfirst, <- !app_assoc. reflexivity.
Qed.

(** ** Compensation for [Rot] *)

(** C3. [Rot] has the single term [(-0.5, Z)].  For its first parameter the
    gate moves from the end of the prefix to the start of the suffix; for its
    second, [RZ(-omega)], [RX(pi/2)] are appended to the prefix and
    [RX(-pi/2)], [RZ(omega)] prepended to the suffix; for its third nothing
    is inserted. *)
Theorem rot_compensation `{Collaborators} (t : tape) (argnum : option (list nat))
    (aux_wire : wire) (st : grad_state) (id : nat) (phi th omega : angle) (w : wire)
    (idx p_idx : nat) :
  _expval_hadamard_grad t argnum aux_wire = Ok st ->
  In id (argnums_of t argnum) ->
  get_operation t id = Ok (Rot phi th omega w, idx, p_idx) ->
  let ops := operations t in
  let rot_gate := Rot phi th omega w in
  let test := [Hadamard aux_wire; Ctrl (PauliZ w) aux_wire; Hadamard aux_wire] in
  _get_generators rot_gate = Ok ([qc (-1) 2], [PauliZ w])
  /\ firstn (idx + 1) ops = firstn idx ops ++ [rot_gate]
  /\ exists s rot,
       tapes_for st id = [s]
       /\ _ops s =
          match p_idx with
          | 0 => firstn idx ops ++ test ++ [rot_gate] ++ skipn (idx + 1) ops ++ rot
          | 1 => firstn (idx + 1) ops
                   ++ [RZ (angle_neg omega) w; RX (angle_div np_pi (qc 2 1)) w]
                   ++ test
                   ++ [RX (angle_div (angle_neg np_pi) (qc 2 1)) w; RZ omega w]
                   ++ skipn (idx + 1) ops ++ rot
          | _ => firstn (idx + 1) ops ++ test ++ skipn (idx + 1) ops ++ rot
          end.
Proof.
  intros Hrun Hin Hget. cbv zeta.
  assert (Hgen : _get_generators (Rot phi th omega w) = Ok ([qc (-1) 2], [PauliZ w]))
    by reflexivity.
  pose proof (tapes_for_differentiated _ _ _ _ _ _ _ _ _ _ Hrun Hin Hget Hgen) as Hts.
  destruct (get_operation_owner _ _ _ _ _ Hget) as (Hnth & _ & _).
  pose proof (firstn_succ_nth _ _ _ Hnth) as Hfirst.
  split; [exact Hgen |]. split; [exact Hfirst |].
  cbn [map_result] in Hts.
  apply bind_ok in Hts as (s & Hs & Hts). cbn in Hts. injection Hts as Hts.
  apply aux_tape_ok in Hs as (rot & _ & Hops).
  exists s, rot. split; [symmetry; exact Hts |].
  rewrite Hops. unfold hadamard_test, split_at_gate.
  destruct p_idx as [| [| p_idx]]; cbn [Nat.eqb fst snd];
    rewrite ?Hfirst, <- ?app_assoc; reflexivity.
Qed.

(** ** The emitted circuits *)


(** ** Projection of probabilities *)
















(** ** Aggregation and shape *)

Lemma grads_loop_length (mm : bool) (final_res : list nd) (data : list nat)
    (grads grads' : list nd) (idx idx' : nat) :
  for_each (grads_body mm final_res) data (grads, idx) = Ok (grads', idx') ->
  length grads' = length grads + length data.
Proof.
  revert grads idx. induction data as [| n data IH]; intros grads idx; cbn [for_each].
  - intros [= <- _]. cbn. lia.
  - intros Hloop. apply bind_ok in Hloop as ([g1 i1] & Hstep & Hloop).
    apply IH in Hloop. rewrite Hloop. cbn [length].
    assert (Hlen : length g1 = length grads + 1).
    { unfold grads_body in Hstep. destruct n as [| [| n]].
      - injection Hstep as <- _. rewrite length_app. reflexivity.
      - apply bind_ok in Hstep as (g & _ & [= <- _]). rewrite length_app. reflexivity.
      - apply bind_ok in Hstep as (g & _ & [= <- _]). rewrite length_app. reflexivity. }
    lia.
Qed.

Lemma compute_grads_length (t : tape) (st : grad_state) (results : list raw)
    (grads : list nd) :
  compute_grads t st results = Ok grads ->
  length grads = length (gradient_data st).
Proof.
  unfold compute_grads. intros Hc.
  apply bind_ok in Hc as (final_res & _ & Hc).
  apply bind_ok in Hc as ([g i] & Hloop & [= <-]).
  apply grads_loop_length in Hloop. exact Hloop.
Qed.









Lemma In_firstn {A : Type} (l : list A) (n : nat) (x : A) : In x (firstn n l) -> In x l.
Proof.
  intros Hin. rewrite <- (firstn_skipn n l). apply in_or_app. left. exact Hin.
Qed.

Lemma In_skipn {A : Type} (l : list A) (n : nat) (x : A) : In x (skipn n l) -> In x l.
Proof.
  intros Hin. rewrite <- (firstn_skipn n l). apply in_or_app. right. exact Hin.
Qed.





(** C5 does not hold of this code.  For the tape [CRX(0.4, [0, 1]);
    probs(wires=[0])], whose one parameter has two generator terms, and the
    results [crx_results]: the scaled and projected results are
    [[-0.05, 0.15]] and [[0.15, 0.05]], their sum entry by entry is
    [[0.1, 0.2]], and [processing_fn] returns the number [0.3], the sum of
    all four entries. *)
Theorem crx_probs_sum_collapses :
  exists st final_res,
    @_expval_hadamard_grad sample_collaborators tape_crx_probs None w2 = Ok st
    /\ gradient_data st = [2]
    /\ postprocess_probs tape_crx_probs false (scale_results (coeffs st) crx_results)
       = Ok final_res
    /\ final_res = [vec [qc (-1) 20; qc 3 20]; vec [qc 3 20; qc 1 20]]
    /\ sum_axis0 final_res = Ok (vec [qc 1 10; qc 1 5])
    /\ processing_fn tape_crx_probs st crx_results = Ok (Num (qc 3 10)).
Proof.
  eexists. eexists.
  split; [vm_compute; reflexivity |].
  split; [reflexivity |].
  split; [vm_compute; reflexivity |].
  split; [qc_compute |].
  split; qc_compute.
Qed.

(** ** The properties on the sample tapes *)



Lemma split_keeps_owning_gate_witness :
  firstn 1 (operations tape_rx_ry_rx) = [] ++ [RX (theta 1 10) w0]
  /\ Forall (fun s => In (RX (theta 1 10) w0) (_ops s)) (tapes_for st_rx_ry_rx 0)
  /\ Forall2 (fun gen s => exists rot,
                _ops s = firstn 1 (operations tape_rx_ry_rx)
                           ++ [Hadamard w1; Ctrl gen w1; Hadamard w1]
                           ++ skipn 1 (operations tape_rx_ry_rx) ++ rot)
             [PauliX w0] (tapes_for st_rx_ry_rx 0).
Proof.
  pose proof (@split_keeps_owning_gate sample_collaborators tape_rx_ry_rx (Some [0]) w1
                st_rx_ry_rx 0 (RX (theta 1 10) w0) 0 0 [qc (-1) 2] [PauliX w0]
                eq_refl (or_introl eq_refl) eq_refl eq_refl) as (H1 & H2 & H3).
  split; [exact H1 |]. split; [exact H2 |]. apply H3. reflexivity.
Defined.

Lemma rot_compensation_witness :
  exists s rot,
    tapes_for st_rot 1 = [s]
    /\ _ops s =
       firstn 1 (operations tape_rot)
         ++ [RZ (angle_neg (theta 3 10)) w0; RX (angle_div np_pi (qc 2 1)) w0]
         ++ [Hadamard w1; Ctrl (PauliZ w0) w1; Hadamard w1]
         ++ [RX (angle_div (angle_neg np_pi) (qc 2 1)) w0; RZ (theta 3 10) w0]
         ++ skipn 1 (operations tape_rot) ++ rot.
Proof.
  exact (proj2 (proj2 (@rot_compensation sample_collaborators tape_rot None w1 st_rot 1
                         (theta 1 10) (theta 1 5) (theta 3 10) w0 0 1
                         eq_refl (or_intror (or_introl eq_refl)) eq_refl))).
Defined.






(** * Further properties of the transform *)

(** ** Bookkeeping of the emitted tapes *)

Lemma Forall2_In_r {A B : Type} (R : A -> B -> Prop) (l : list A) (l' : list B) (y : B) :
  Forall2 R l l' -> In y l' -> exists x, In x l /\ R x y.
Proof.
  intros HR. induction HR as [| x y' l l' Hxy HR IH]; intros Hin; [destruct Hin |].
  destruct Hin as [<- | Hin].
  - exists x. split; [left; reflexivity | exact Hxy].
  - destruct (IH Hin) as (x' & Hx' & Hr). exists x'. split; [right |]; assumption.
Qed.



Lemma existsb_eqb_In (id : nat) (l : list nat) :
  existsb (Nat.eqb id) l = true <-> In id l.
Proof.
  rewrite existsb_exists. split.
  - intros (x & Hx & Heq). apply Nat.eqb_eq in Heq. subst. exact Hx.
  - intros Hin. exists id. split; [exact Hin | apply Nat.eqb_refl].
Qed.

(** X2. A trainable parameter that is not in [argnums] gets the count 0 and
    no tape; one that is gets as many tapes as its gate has generator
    terms. *)
Theorem emission_counts `{Collaborators} (t : tape) (argnum : option (list nat))
    (aux_wire : wire) (st : grad_state) :
  _expval_hadamard_grad t argnum aux_wire = Ok st ->
  (forall id,
      id < length (trainable_params t) ->
      ~ In id (argnums_of t argnum) ->
      nth_error (gradient_data st) id = Some 0 /\ tapes_for st id = [])
  /\ (forall id op idx p_idx cs gens,
        In id (argnums_of t argnum) ->
        get_operation t id = Ok (op, idx, p_idx) ->
        _get_generators op = Ok (cs, gens) ->
        nth_error (gradient_data st) id = Some (length gens)
        /\ length (tapes_for st id) = length gens).
Proof.
  intros Hrun. split.
  - intros id Hid Hout.
    destruct (tapes_for_spec _ _ _ _ id Hrun Hid) as (cs & Htp & Hn).
    unfold tapes_of_param in Htp.
    assert (Hmem : existsb (Nat.eqb id) (argnums_of t argnum) = false).
    { destruct (existsb (Nat.eqb id) (argnums_of t argnum)) eqn:E; [| reflexivity].
      apply existsb_eqb_In in E. contradiction. }
    rewrite Hmem in Htp. cbn in Htp. injection Htp as Hts _.
    rewrite <- Hts in *. split; [exact Hn | reflexivity].
  - intros id op idx p_idx cs gens Hin Hget Hgen.
    pose proof (tapes_for_differentiated _ _ _ _ _ _ _ _ _ _ Hrun Hin Hget Hgen) as Hts.
    apply map_result_length in Hts.
    destruct (get_operation_owner _ _ _ _ _ Hget) as (_ & _ & Hid).
    destruct (tapes_for_spec _ _ _ _ id Hrun Hid) as (cs' & _ & Hn).
    rewrite Hn, Hts. auto.
Qed.

Lemma emission_counts_witness :
  (nth_error (gradient_data st_rx_ry_rx) 1 = Some 0 /\ tapes_for st_rx_ry_rx 1 = [])
  /\ (nth_error (gradient_data st_crx_probs) 0 = Some 2
      /\ length (tapes_for st_crx_probs 0) = 2).
Proof.
  split.
  - apply (proj1 (@emission_counts sample_collaborators tape_rx_ry_rx (Some [0]) w1
                    st_rx_ry_rx eq_refl) 1).
    + cbn. lia.
    + cbn. intros [E | []]. discriminate E.
  - exact (proj2 (@emission_counts sample_collaborators tape_crx_probs None w2
                    st_crx_probs eq_refl)
             0 (CRX (theta 2 5) w0 w1) 0 0 [qc (-1) 4; qc 1 4]
             [PauliX w1; Prod (PauliZ w0) (PauliX w1)]
             (or_introl eq_refl) eq_refl eq_refl).
Defined.






(** ** What [argnum] decides *)

Lemma for_each_ext_in {S A : Type} (f g : S -> A -> result S) (l : list A) (st : S) :
  (forall s x, In x l -> f s x = g s x) -> for_each f l st = for_each g l st.
Proof.
  revert st. induction l as [| x l IH]; intros st Hext; cbn; [reflexivity |].
  rewrite (Hext st x (or_introl eq_refl)).
  destruct (g st x) as [st' |]; cbn; [| reflexivity].
  apply IH. intros s y Hy. apply Hext. right. exact Hy.
Qed.



(** ** All or nothing *)

(** X5. The transform returns nothing in part: when the reference of a
    parameter in [argnums] does not resolve, or its gate has no generator,
    the whole call raises. *)
Theorem failing_parameter_aborts `{Collaborators} (t : tape) (argnum : option (list nat))
    (aux_wire : wire) (id : nat) :
  id < length (trainable_params t) ->
  In id (argnums_of t argnum) ->
  (forall e, get_operation t id = Raise e ->
     exists e', _expval_hadamard_grad t argnum aux_wire = Raise e')
  /\ (forall op idx p_idx e,
        get_operation t id = Ok (op, idx, p_idx) ->
        _get_generators op = Raise e ->
        exists e', _expval_hadamard_grad t argnum aux_wire = Raise e').
Proof.
  intros Hid Hin.
  assert (Hfail : forall e,
            tapes_of_param t (argnums_of t argnum) aux_wire id = Raise e ->
            exists e', _expval_hadamard_grad t argnum aux_wire = Raise e').
  { intros e Htp.
    destruct (_expval_hadamard_grad t argnum aux_wire) as [st | e'] eqn:Hrun;
      [| exists e'; reflexivity].
    destruct (tapes_for_spec _ _ _ _ id Hrun Hid) as (cs & Hok & _). congruence. }
  apply existsb_eqb_In in Hin.
  split.
  - intros e Hget. apply (Hfail e). unfold tapes_of_param.
    rewrite Hin, Hget. reflexivity.
  - intros op idx p_idx e Hget Hgen. apply (Hfail e). unfold tapes_of_param.
    rewrite Hin, Hget. cbn. rewrite Hgen. reflexivity.
Qed.

Lemma failing_parameter_aborts_witness :
  exists e', @_expval_hadamard_grad sample_collaborators tape_custom None w1 = Raise e'.
Proof.
  apply (proj2 (@failing_parameter_aborts sample_collaborators tape_custom None w1 0
                  ltac:(cbn; lia) (or_introl eq_refl))
           (Gate "Custom" [theta 1 10] [w0]) 0 0 GeneratorUndefinedError);
    reflexivity.
Defined.

(** ** The original gates *)

Lemma subseq_refl {A : Type} (l : list A) : subseq l l.
Proof. induction l; constructor; assumption. Qed.

Lemma subseq_nil_l {A : Type} (l : list A) : subseq [] l.
Proof. induction l; constructor; assumption. Qed.

Lemma subseq_app {A : Type} (l1 l1' l2 l2' : list A) :
  subseq l1 l1' -> subseq l2 l2' -> subseq (l1 ++ l2) (l1' ++ l2').
Proof.
  intros H1 H2. induction H1; cbn; [exact H2 | |]; constructor; assumption.
Qed.

Lemma subseq_app_keep {A : Type} (a l l' : list A) :
  subseq l l' -> subseq (a ++ l) (a ++ l').
Proof. intros Hs. apply subseq_app; [apply subseq_refl | exact Hs]. Qed.

Lemma subseq_app_skip {A : Type} (a l l' : list A) :
  subseq l l' -> subseq l (a ++ l').
Proof. intros Hs. apply (subseq_app [] a l l'); [apply subseq_nil_l | exact Hs]. Qed.

Lemma subseq_app_r {A : Type} (l r : list A) : subseq l (l ++ r).
Proof.
  rewrite <- (app_nil_r l) at 1. apply subseq_app_keep, subseq_nil_l.
Qed.

Lemma split_at_nth {A : Type} (l : list A) (i : nat) (x : A) :
  nth_error l i = Some x -> l = firstn i l ++ [x] ++ skipn (i + 1) l.
Proof.
  intros Hi. rewrite app_assoc, <- (firstn_succ_nth _ _ _ Hi).
  symmetry. apply firstn_skipn.
Qed.

Lemma split_subseq (ops : list operation) (op : operation) (idx p_idx : nat)
    (mid rot : list operation) :
  nth_error ops idx = Some op ->
  subseq ops ((fst (split_at_gate ops op idx p_idx) ++ mid
               ++ snd (split_at_gate ops op idx p_idx)) ++ rot).
Proof.
  intros Hnth. pose proof (split_at_nth _ _ _ Hnth) as Hops.
  unfold split_at_gate.
  remember (firstn idx ops) as before eqn:Hb.
  remember (skipn (idx + 1) ops) as after eqn:Ha.
  clear Hb Ha Hnth. subst ops.
  assert (Hplain : subseq (before ++ [op] ++ after)
                          (((before ++ [op]) ++ mid ++ after) ++ rot)).
  { rewrite <- !app_assoc. apply subseq_app_keep, subseq_app_keep, subseq_app_skip.
    apply subseq_app_r. }
  destruct op; try exact Hplain.
  destruct (p_idx =? 0); [| destruct (p_idx =? 1)]; cbn [fst snd]; [| | exact Hplain].
  - rewrite <- !app_assoc. apply subseq_app_keep, subseq_app_skip.
    apply subseq_app_keep, subseq_app_r.
  - rewrite <- !app_assoc. apply subseq_app_keep, subseq_app_keep.
    apply (subseq_app_skip [_; _]), subseq_app_skip, (subseq_app_skip [_; _]).
    apply subseq_app_r.
Qed.

Lemma g_tapes_origin `{Collaborators} (t : tape) (argnum : option (list nat))
    (aux_wire : wire) (st : grad_state) (s : QuantumScript) :
  _expval_hadamard_grad t argnum aux_wire = Ok st ->
  In s (g_tapes st) ->
  exists id op idx p_idx gen,
    In id (argnums_of t argnum)
    /\ get_operation t id = Ok (op, idx, p_idx)
    /\ aux_tape t aux_wire (fst (split_at_gate (operations t) op idx p_idx))
         (snd (split_at_gate (operations t) op idx p_idx)) gen = Ok s.
Proof.
  intros Hrun Hin.
  apply expval_grad_spec in Hrun as (per & Hper & Hg & _ & _).
  rewrite Hg in Hin. apply in_concat in Hin as (ts & Hts & Hin).
  apply in_map_iff in Hts as ([ts' cs] & Heq & Hp). cbn in Heq. subst ts'.
  apply map_result_Forall2 in Hper.
  destruct (Forall2_In_r _ _ _ _ Hper Hp) as (id & _ & Htp).
  unfold tapes_of_param in Htp.
  destruct (existsb (Nat.eqb id) (argnums_of t argnum)) eqn:Hmem; cbn in Htp.
  2: { injection Htp as <- _. destruct Hin. }
  apply bind_ok in Htp as ([[op idx] p_idx] & Hget & Htp).
  apply bind_ok in Htp as ([sub gens] & Hgen & Htp).
  destruct (split_at_gate (operations t) op idx p_idx) as [pre post] eqn:Hsplit.
  apply bind_ok in Htp as (ts' & Hmap & [= <- <-]).
  apply map_result_Forall2 in Hmap.
  destruct (Forall2_In_r _ _ _ _ Hmap Hin) as (gen & _ & Haux).
  exists id, op, idx, p_idx, gen.
  split; [apply existsb_eqb_In; exact Hmem |]. split; [exact Hget |].
  rewrite Hsplit. exact Haux.
Qed.

(** X6. No gate of the tape is dropped or reordered: the gates of every
    emitted tape are the gates of the tape, in their order, with further
    gates put in between and after. *)
Theorem original_gates_kept_in_order `{Collaborators} (t : tape)
    (argnum : option (list nat)) (aux_wire : wire) (st : grad_state) :
  _expval_hadamard_grad t argnum aux_wire = Ok st ->
  Forall (fun s => subseq (operations t) (_ops s)) (g_tapes st).
Proof.
  intros Hrun. apply Forall_forall. intros s Hin.
  destruct (g_tapes_origin _ _ _ _ _ Hrun Hin)
    as (id & op & idx & p_idx & gen & _ & Hget & Haux).
  apply aux_tape_ok in Haux as (rot & _ & ->).
  destruct (get_operation_owner _ _ _ _ _ Hget) as (Hnth & _ & _).
  unfold hadamard_test.
  apply (split_subseq (operations t) op idx p_idx
           ([Hadamard aux_wire] ++ [Ctrl gen aux_wire] ++ [Hadamard aux_wire]) rot Hnth).
Qed.

Lemma original_gates_kept_in_order_witness :
  Forall (fun s => subseq (operations tape_rot) (_ops s)) (g_tapes st_rot).
Proof.
  exact (@original_gates_kept_in_order sample_collaborators tape_rot None w1 st_rot
           eq_refl).
Defined.

(** ** The entry point past its checks *)









(** X10. The two zero-gradient returns come before the wire validation: a
    tape without trainable parameters and without [argnum], and a tape whose
    parameters all have method ["0"], are handed to the helpers whatever the
    auxiliary wire and the device wires are. *)
Theorem zero_gradient_returns_skip_wire_checks `{Collaborators} (t : tape)
    (argnum : option (list nat)) (aux_wire : option wire)
    (device_wires : option (list wire)) :
  active_return = true ->
  existsb is_variance (measurements t) = false ->
  existsb is_state_like (measurements t) = false ->
  (argnum = None -> trainable_params t = [] ->
     _hadamard_grad t argnum aux_wire device_wires = Ok NoTrainableGrad)
  /\ (forall diff_methods,
        (argnum = None -> trainable_params t <> []) ->
        grad_method_validation t = Ok diff_methods ->
        forallb (fun g => String.eqb g "0") diff_methods = true ->
        _hadamard_grad t argnum aux_wire device_wires = Ok AllZeroGrad).
Proof.
  intros Hret Hvar Hst. unfold _hadamard_grad. rewrite Hret, Hvar, Hst. cbn [negb].
  split.
  - intros -> ->. reflexivity.
  - intros dm Harg Hdm Hzero.
    assert (Hshort : match argnum, trainable_params t with
                     | None, [] => true | _, _ => false end = false).
    { destruct argnum; [reflexivity |].
      destruct (trainable_params t); [exfalso; apply Harg; reflexivity | reflexivity]. }
    rewrite Hshort, Hdm. cbn [bind]. rewrite Hzero. reflexivity.
Qed.

Lemma zero_gradient_returns_skip_wire_checks_witness :
  @_hadamard_grad sample_collaborators tape_fixed None (Some w0) (Some [w0])
    = Ok NoTrainableGrad
  /\ @_hadamard_grad zero_collaborators tape_rx_ry_rx None (Some w0) (Some [w0])
    = Ok AllZeroGrad.
Proof.
  split.
  - apply (proj1 (@zero_gradient_returns_skip_wire_checks sample_collaborators tape_fixed
                    None (Some w0) (Some [w0]) eq_refl eq_refl eq_refl));
      reflexivity.
  - apply (proj2 (@zero_gradient_returns_skip_wire_checks zero_collaborators
                    tape_rx_ry_rx None (Some w0) (Some [w0]) eq_refl eq_refl eq_refl)
             ["0"%string; "0"%string; "0"%string]).
    + intros _. discriminate.
    + reflexivity.
    + reflexivity.
Defined.

(** * Further properties of the post-processing *)

(** ** Nothing to differentiate, nothing to process *)

Lemma skipped_loop `{Collaborators} (t : tape) (argnums : list nat) (aux_wire : wire)
    (n start : nat) (g : list QuantumScript) (c : list Qc) (d : list nat) :
  (forall id, start <= id < start + n -> ~ In id argnums) ->
  for_each (param_body t argnums aux_wire) (seq start n) (GradState g c d)
  = Ok (GradState g c (d ++ repeat 0 n)).
Proof.
  revert start d. induction n as [| n IH]; intros start d Hout; cbn [seq for_each repeat].
  - rewrite app_nil_r. reflexivity.
  - unfold param_body at 1.
    assert (Hmem : existsb (Nat.eqb start) argnums = false).
    { destruct (existsb (Nat.eqb start) argnums) eqn:E; [| reflexivity].
      apply existsb_eqb_In in E. exfalso. apply (Hout start); [lia | exact E]. }
    rewrite Hmem. cbn [negb bind g_tapes coeffs gradient_data].
    rewrite IH by (intros id Hid; apply Hout; lia).
    rewrite <- app_assoc. reflexivity.
Qed.

Lemma zeros_loop (mm : bool) (final_res : list nd) (n idx : nat) (grads : list nd) :
  for_each (grads_body mm final_res) (repeat 0 n) (grads, idx)
  = Ok (grads ++ repeat (Num 0%Qc) n, idx).
Proof.
  revert grads. induction n as [| n IH]; intros grads; cbn [repeat for_each].
  - rewrite app_nil_r. reflexivity.
  - cbn [grads_body bind]. rewrite IH, <- app_assoc. reflexivity.
Qed.

(** X11. An [argnum] that names no trainable parameter is no error: one
    zero count per parameter is recorded and no tape is emitted; and on a
    tape without probability measurement the gradient entries are then
    zeros, whatever results are passed. *)
Theorem foreign_argnum_emits_nothing `{Collaborators} (t : tape) (argnum : list nat)
    (aux_wire : wire) :
  argnum <> [] ->
  (forall id, id < length (trainable_params t) -> ~ In id argnum) ->
  let st := GradState [] [] (repeat 0 (length (trainable_params t))) in
  _expval_hadamard_grad t (Some argnum) aux_wire = Ok st
  /\ (measurements_probs t = [] ->
      forall results,
        compute_grads t st results
        = Ok (repeat (Num 0%Qc) (length (trainable_params t)))).
Proof.
  intros Hne Hout st. split.
  - unfold _expval_hadamard_grad, enumerate. rewrite enumerate_from_fst.
    assert (Hargs : argnums_of t (Some argnum) = argnum).
    { destruct argnum; [congruence | reflexivity]. }
    rewrite Hargs. apply (skipped_loop t argnum aux_wire _ 0 [] [] []).
    intros id Hid. apply Hout. lia.
  - intros Hprobs results. unfold compute_grads, postprocess_probs.
    rewrite Hprobs. cbn [bind coeffs gradient_data st].
    rewrite zeros_loop. reflexivity.
Qed.

Lemma foreign_argnum_emits_nothing_witness :
  @_expval_hadamard_grad sample_collaborators tape_rx_ry_rx (Some [7]) w1
    = Ok (GradState [] [] [0; 0; 0])
  /\ compute_grads tape_rx_ry_rx (GradState [] [] [0; 0; 0]) [Array (Num (qc 1 2))]
     = Ok [Num 0%Qc; Num 0%Qc; Num 0%Qc].
Proof.
  pose proof (@foreign_argnum_emits_nothing sample_collaborators tape_rx_ry_rx [7] w1
                ltac:(discriminate)
                ltac:(intros id Hid [E | []]; subst id; cbn in Hid; lia))
    as [Hrun Hzero].
  split; [exact Hrun |]. apply Hzero. reflexivity.
Defined.

(** X12. With a probability measurement in the tape the post-processing
    needs a first result: without results, or without coefficients, it
    raises an [IndexError], even when every gradient entry would be the
    zero of a parameter left out. *)
Theorem probs_needs_a_first_result (t : tape) (st : grad_state) (results : list raw) :
  measurements_probs t <> [] ->
  results = [] \/ coeffs st = [] ->
  processing_fn t st results = Raise IndexError.
Proof.
  intros Hprobs Hempty.
  assert (Hfr : scale_results (coeffs st) results = []).
  { unfold scale_results. destruct Hempty as [-> | ->]; [| reflexivity].
    rewrite combine_nil. reflexivity. }
  unfold processing_fn, compute_grads, postprocess_probs. rewrite Hfr.
  destruct (measurements_probs t); [congruence | reflexivity].
Qed.

Lemma probs_needs_a_first_result_witness :
  processing_fn tape_rx_probs (GradState [] [] [0]) [] = Raise IndexError.
Proof.
  apply probs_needs_a_first_result; [discriminate | left; reflexivity].
Defined.

(** ** A parameter left out, several measurements *)

Lemma grads_loop_zero (mm : bool) (final_res : list nd) (data : list nat)
    (grads grads' : list nd) (idx idx' : nat) :
  for_each (grads_body mm final_res) data (grads, idx) = Ok (grads', idx') ->
  exists tail,
    grads' = grads ++ tail
    /\ forall j, nth_error data j = Some 0 -> nth_error tail j = Some (Num 0%Qc).
Proof.
  revert grads idx. induction data as [| n data IH]; intros grads idx Hloop.
  - cbn in Hloop. injection Hloop as <- _. exists []. split.
    + rewrite app_nil_r. reflexivity.
    + intros [| j]; discriminate.
  - cbn [for_each] in Hloop. apply bind_ok in Hloop as ([g1 i1] & Hstep & Hloop).
    assert (Hg1 : exists g, g1 = grads ++ [g] /\ (n = 0 -> g = Num 0%Qc)).
    { unfold grads_body in Hstep. destruct n as [| [| n]].
      - injection Hstep as <- _. eexists. split; reflexivity.
      - apply bind_ok in Hstep as (g & _ & [= <- _]).
        exists g. split; [reflexivity | discriminate].
      - apply bind_ok in Hstep as (g & _ & [= <- _]).
        exists g. split; [reflexivity | discriminate]. }
    destruct Hg1 as (g & -> & Hzero).
    apply IH in Hloop as (tail & -> & Htail).
    exists (g :: tail). split.
    + rewrite <- app_assoc. reflexivity.
    + intros [| j] Hj; cbn in *.
      * injection Hj as ->. rewrite (Hzero eq_refl). reflexivity.
      * apply Htail. exact Hj.
Qed.

Lemma map_result_raises {A B : Type} (f : A -> result B) (l : list A) (e : exn) (x : A) :
  (forall z, In z l -> (exists y, f z = Ok y) \/ f z = Raise e) ->
  In x l -> f x = Raise e -> map_result f l = Raise e.
Proof.
  induction l as [| a l IH]; intros Hall Hin Hx; [destruct Hin |].
  cbn. destruct (Hall a (or_introl eq_refl)) as [(y & Hy) | Hy].
  - rewrite Hy. cbn. destruct Hin as [-> | Hin]; [congruence |].
    rewrite IH; [reflexivity | | exact Hin | exact Hx].
    intros z Hz. apply Hall. right. exact Hz.
  - rewrite Hy. reflexivity.
Qed.

Lemma grads_entry_ok_or_index (grads : list nd) (j i : nat) :
  (exists e, grads_entry grads j i = Ok e) \/ grads_entry grads j i = Raise IndexError.
Proof.
  unfold grads_entry, getitem.
  destruct (nth_error grads j) as [[x | xs] |]; cbn; auto.
  unfold getitem. destruct (nth_error xs i); eauto.
Qed.

(** X13. A parameter left out of the differentiation has the bare zero as
    its entry, which cannot be indexed by measurement: with several
    measurements [processing_fn] then raises, an [IndexError] in the
    reordering when there are several parameters and a [TypeError] in
    [tuple] when there is one. *)
Theorem left_out_parameter_breaks_multi_measurement (t : tape) (st : grad_state)
    (results : list raw) (grads : list nd) (j : nat) :
  1 < length (measurements t) ->
  length (gradient_data st) = length (trainable_params t) ->
  compute_grads t st results = Ok grads ->
  nth_error (gradient_data st) j = Some 0 ->
  processing_fn t st results
  = Raise (if 1 <? length (trainable_params t) then IndexError else TypeError).
Proof.
  intros Hm Hk Hgrads Hj.
  pose proof (compute_grads_length _ _ _ _ Hgrads) as Hlen.
  assert (Hzero : nth_error grads j = Some (Num 0%Qc)).
  { unfold compute_grads in Hgrads.
    apply bind_ok in Hgrads as (final_res & _ & Hgrads).
    apply bind_ok in Hgrads as ([g i] & Hloop & [= <-]).
    apply grads_loop_zero in Hloop as (tail & -> & Htail). apply Htail. exact Hj. }
  assert (Hjk : j < length (trainable_params t)).
  { rewrite <- Hk. apply nth_error_Some. congruence. }
  unfold processing_fn. rewrite Hgrads. cbn [bind]. unfold reconcile.
  apply Nat.ltb_lt in Hm. rewrite Hm. cbn [negb andb].
  destruct (1 <? length (trainable_params t)) eqn:Hmulti; cbn [negb andb].
  - destruct (length (measurements t)) as [| m]; [discriminate |].
    cbn [seq map_result].
    rewrite (map_result_raises _ _ IndexError j); [reflexivity | | |].
    + intros z _. apply (grads_entry_ok_or_index grads z 0).
    + apply in_seq. lia.
    + unfold getitem. rewrite Hzero. reflexivity.
  - apply Nat.ltb_ge in Hmulti.
    assert (j = 0) by lia. subst j.
    unfold getitem. rewrite Hzero. reflexivity.
Qed.

Lemma left_out_parameter_breaks_multi_measurement_witness :
  processing_fn tape_two_by_two st_first_only results_first_only = Raise IndexError.
Proof.
  exact (left_out_parameter_breaks_multi_measurement tape_two_by_two st_first_only
           results_first_only grads_first_only 1
           ltac:(cbn; lia) eq_refl eq_refl eq_refl).
Defined.

(** ** Scaling and projecting *)






(** ** Numbers are summed alike *)

Lemma fold_sums (l : list Qc) (a : Qc) :
  fold_left Qcplus l a = (a + fold_right Qcplus 0%Qc l)%Qc.
Proof.
  revert a. induction l as [| x l IH]; intros a; cbn; [ring |].
  rewrite IH. ring.
Qed.

Lemma add_numbers (l : list Qc) (a : Qc) :
  for_each nd_add (map Num l) (Num a) = Ok (Num (fold_left Qcplus l a)).
Proof.
  revert a. induction l as [| x l IH]; intros a; cbn; [reflexivity | apply IH].
Qed.

Lemma numbers_list (l : list nd) : Forall is_num l -> exists xs, l = map Num xs.
Proof.
  induction 1 as [| a l (x & ->) _ (xs & ->)].
  - exists []. reflexivity.
  - exists (x :: xs). reflexivity.
Qed.

Lemma sums_of_numbers (l : list nd) :
  Forall is_num l -> sum_axis0 l = Ok (sum_all l).
Proof.
  intros Hl. destruct (numbers_list l Hl) as (xs & ->). unfold sum_all.
  assert (Hflat : flat_map ravel (map Num xs) = xs).
  { clear. induction xs as [| x xs IH]; cbn; [reflexivity | f_equal; exact IH]. }
  rewrite Hflat. destruct xs as [| a xs]; [reflexivity |].
  cbn [map sum_axis0 fold_right]. rewrite add_numbers, fold_sums. reflexivity.
Qed.

Lemma Forall_slice {A : Type} (P : A -> Prop) (l : list A) (i j : nat) :
  Forall P l -> Forall P (slice l i j).
Proof.
  intros Hl. apply Forall_forall. intros x Hin. unfold slice in Hin.
  apply In_firstn, In_skipn in Hin. rewrite Forall_forall in Hl. auto.
Qed.

(** X15. When every scaled result is a number, as for expectation values,
    the loop that builds [grads] does not depend on whether the tape has
    several measurements: summing all entries ([axis=None]) and summing
    entry by entry ([axis=0]) are the same sum of the results of a
    parameter. *)
Theorem number_results_sum_alike (final_res : list nd) (gradient_data : list nat)
    (st : list nd * nat) :
  Forall is_num final_res ->
  for_each (grads_body false final_res) gradient_data st
  = for_each (grads_body true final_res) gradient_data st.
Proof.
  intros Hnum. apply for_each_ext_in. intros [grads idx] n _.
  unfold grads_body. destruct n as [| [| n]]; try reflexivity.
  cbn [negb math_sum].
  rewrite (sums_of_numbers _ (Forall_slice _ _ _ _ Hnum)). reflexivity.
Qed.

Lemma number_results_sum_alike_witness :
  for_each (grads_body false [Num (qc 1 2); Num (qc 1 4)]) [2] ([], 0)
  = for_each (grads_body true [Num (qc 1 2); Num (qc 1 4)]) [2] ([], 0).
Proof.
  apply number_results_sum_alike.
  repeat constructor; eexists; reflexivity.
Defined.

(** ** Missing results *)





(** ** One parameter at a time *)

(** X17. The tapes of a trainable parameter do not depend on which other
    parameters are differentiated with it: two successful runs that both
    differentiate it emit the same tapes for it. *)
Theorem tapes_of_a_parameter_are_its_own `{Collaborators} (t : tape)
    (argnum argnum' : option (list nat)) (aux_wire : wire) (st st' : grad_state)
    (id : nat) :
  _expval_hadamard_grad t argnum aux_wire = Ok st ->
  _expval_hadamard_grad t argnum' aux_wire = Ok st' ->
  id < length (trainable_params t) ->
  In id (argnums_of t argnum) ->
  In id (argnums_of t argnum') ->
  tapes_for st id = tapes_for st' id.
Proof.
  intros Hrun Hrun' Hid Hin Hin'.
  destruct (tapes_for_spec _ _ _ _ id Hrun Hid) as (cs & Htp & _).
  destruct (tapes_for_spec _ _ _ _ id Hrun' Hid) as (cs' & Htp' & _).
  unfold tapes_of_param in Htp, Htp'.
  apply existsb_eqb_In in Hin, Hin'. rewrite Hin in Htp. rewrite Hin' in Htp'.
  rewrite Htp in Htp'. injection Htp' as Heq _. exact Heq.
Qed.

Lemma tapes_of_a_parameter_are_its_own_witness :
  tapes_for st_rx_ry_rx 0
  = tapes_for (state_of (@_expval_hadamard_grad sample_collaborators tape_rx_ry_rx
                           None w1)) 0.
Proof.
  apply (@tapes_of_a_parameter_are_its_own sample_collaborators tape_rx_ry_rx
           (Some [0]) None w1 _ _ 0 eq_refl eq_refl).
  - cbn. lia.
  - left. reflexivity.
  - left. reflexivity.
Defined.
